(** * hume_broker: the broker facade of [broker.py]

    A shallow embedding of the module [hume_broker/broker.py] and the
    properties of its specification.

    The module keeps two globals, [_internal_subscriptions] (a dict from
    topic to a list of callbacks) and [_rmq_client] (the transport client
    of the package [rabbitmq_client]), and every function of the facade
    reads or rebinds them.  The embedding threads them through a state
    and exception monad; the transport client, which is not part of this
    module, is an interface ([RMQClient]). *)

From Stdlib Require Import Strings.Byte.
From stdpp Require Import gmap strings list.

(** ** Python values and exceptions *)

(** The values that travel through the facade: messages are text in the
    local domain and bytes in the global one, and every facade function
    but [rpc_call] returns [None]. *)
Inductive value : Type :=
  | VNone
  | VStr (s : string)
  | VBytes (b : list byte).

(** A raised exception: its class and its message. *)
Inductive exn : Type :=
  | PyExn (cls : string) (msg : string).

(** What Python raises on reading a global name that was never bound. *)
Definition NameError (name : string) : exn :=
  PyExn "NameError" ("name '" +:+ name +:+ "' is not defined").

(** [Exception(msg)]. *)
Definition Exception_ (msg : string) : exn := PyExn "Exception" msg.

(** The outcome of a call: it returns a value or raises. *)
Inductive outcome (A : Type) : Type :=
  | Returned (a : A)
  | Raised (e : exn).
Arguments Returned {A} a.
Arguments Raised {A} e.

(** A Python callable of one argument, acting on the caller's side of the
    world [World] (whatever the callback writes to).  It returns or
    raises.  Callbacks are taken not to call back into the broker. *)
Definition callable (World : Type) : Type :=
  value -> World -> World * outcome value.

(** What a registry entry holds: a list of callbacks, or [None]. *)
Inductive pyobj (World : Type) : Type :=
  | PNone
  | PList (l : list (callable World)).
Arguments PNone {World}.
Arguments PList {World} l.

(** [d.get(k)]: the entry, [None] when the key is absent. *)
Definition dict_get {World} (d : gmap string (pyobj World)) (k : string)
  : pyobj World :=
  match d !! k with
  | Some v => v
  | None => PNone
  end.

(** [l.append(x)]: the list object after the call, and the value the call
    returns, which is [None]. *)
Definition list_append {World} (l : list (callable World)) (x : callable World)
  : list (callable World) * pyobj World :=
  (l ++ [x], PNone).

(** ** The transport client

    [rabbitmq_client.client.RMQClient] is an external package.  A method
    call takes the client object and the world to the mutated client, the
    world after the call, and the outcome. *)
Class RMQClient (World LogQueue ConnParams Client : Type) : Type := {
  rmq_init : option LogQueue -> option ConnParams -> outcome Client;
  rmq_start : Client -> World -> Client * World * outcome value;
  rmq_enable_rpc_client : Client -> World -> Client * World * outcome value;
  rmq_stop : Client -> World -> Client * World * outcome value;
  rmq_subscribe :
    string -> callable World -> Client -> World -> Client * World * outcome value;
  rmq_publish :
    string -> value -> Client -> World -> Client * World * outcome value;
  rmq_enable_rpc_server :
    string -> callable World -> Client -> World -> Client * World * outcome value;
  rmq_rpc_call :
    string -> value -> Client -> World -> Client * World * outcome value;
  rmq_command_queue :
    string -> callable World -> Client -> World -> Client * World * outcome value;
  rmq_command :
    string -> value -> Client -> World -> Client * World * outcome value
}.

(** ** The module state and its monad *)

Section Broker.
Context {World LogQueue ConnParams Client : Type}.
Context `{!RMQClient World LogQueue ConnParams Client}.

(** The two module globals ([None]: the name is not bound yet: the module
    only annotates them), the world the callbacks act on, and three
    observations: the calls the broker made to local callbacks, the
    records handed to [LOGGER.info], and the clients that the module no
    longer refers to (Python drops the reference, nothing stops them). *)
Record broker : Type := Broker {
  _internal_subscriptions : option (gmap string (pyobj World));
  _rmq_client : option Client;
  world : World;
  calls : list (callable World * value);
  log : list string;
  orphans : list Client
}.

Definition M (A : Type) : Type := broker -> broker * outcome A.

Definition ret {A} (a : A) : M A := fun st => (st, Returned a).

Definition raise {A} (e : exn) : M A := fun st => (st, Raised e).

Definition bind {A B} (m : M A) (k : A -> M B) : M B :=
  fun st =>
    match m st with
    | (st', Returned a) => k a st'
    | (st', Raised e) => (st', Raised e)
    end.

Notation "x <- c ;; k" := (bind c (fun x => k))
  (at level 100, c at next level, right associativity).
Notation "c ;;; k" := (bind c (fun _ => k))
  (at level 100, right associativity).

(** [LOGGER.info(msg)]. *)
Definition LOGGER_info (msg : string) : M unit :=
  fun st =>
    (Broker (_internal_subscriptions st) (_rmq_client st) (world st)
            (calls st) (log st ++ [msg]) (orphans st),
     Returned tt).

(** Reading the global [_internal_subscriptions]. *)
Definition load_internal_subscriptions : M (gmap string (pyobj World)) :=
  fun st =>
    match _internal_subscriptions st with
    | Some d => (st, Returned d)
    | None => (st, Raised (NameError "_internal_subscriptions"))
    end.

(** Binding the global [_internal_subscriptions], and updating the dict
    it refers to. *)
Definition store_internal_subscriptions (d : gmap string (pyobj World))
  : M unit :=
  fun st =>
    (Broker (Some d) (_rmq_client st) (world st) (calls st) (log st)
            (orphans st),
     Returned tt).

(** Rebinding the global [_rmq_client]: a client it referred to is no
    longer reachable from the module. *)
Definition store_rmq_client (c : Client) : M unit :=
  fun st =>
    (Broker (_internal_subscriptions st) (Some c) (world st) (calls st)
            (log st)
            (match _rmq_client st with
             | Some old => orphans st ++ [old]
             | None => orphans st
             end),
     Returned tt).

(** [RMQClient(log_queue=..., connection_parameters=...)]. *)
Definition new_RMQClient (log_queue : option LogQueue)
    (connection_parameters : option ConnParams) : M Client :=
  fun st => (st, rmq_init log_queue connection_parameters).

(** [_rmq_client.meth(...)]: the name is read, then the method runs on
    the object it refers to, which it may mutate. *)
Definition call_rmq_client
    (meth : Client -> World -> Client * World * outcome value) : M value :=
  fun st =>
    match _rmq_client st with
    | None => (st, Raised (NameError "_rmq_client"))
    | Some c =>
        let '(c', w', r) := meth c (world st) in
        (Broker (_internal_subscriptions st) (Some c') w' (calls st)
                (log st) (orphans st),
         r)
    end.

(** [f(arg)] for a local callback [f]. *)
Definition call (f : callable World) (arg : value) : M value :=
  fun st =>
    let '(w', r) := f arg (world st) in
    (Broker (_internal_subscriptions st) (_rmq_client st) w'
            (calls st ++ [(f, arg)]) (log st) (orphans st),
     r).

(** [for x in l: body(x)]: an exception leaves the loop. *)
Fixpoint for_each {A} (l : list A) (body : A -> M value) : M unit :=
  match l with
  | [] => ret tt
  | x :: l' => body x ;;; for_each l' body
  end.

(** ** The facade, function by function *)

Definition start (log_queue : option LogQueue)
    (connection_parameters : option ConnParams) : M value :=
  LOGGER_info "broker start" ;;;
  store_internal_subscriptions ∅ ;;;
  c <- new_RMQClient log_queue connection_parameters ;;
  store_rmq_client c ;;;
  call_rmq_client rmq_start ;;;
  call_rmq_client rmq_enable_rpc_client ;;;
  ret VNone.

Definition stop : M value :=
  LOGGER_info "broker stop" ;;;
  call_rmq_client rmq_stop ;;;
  ret VNone.

Definition subscribe_global (topic : string) (callback : callable World)
  : M value :=
  LOGGER_info ("broker subscribe_global to " +:+ topic) ;;;
  call_rmq_client (rmq_subscribe topic callback) ;;;
  ret VNone.

Definition subscribe_local (topic : string) (callback : callable World)
  : M value :=
  LOGGER_info ("Broker subscribe_local to " +:+ topic) ;;;
  d <- load_internal_subscriptions ;;
  match dict_get d topic with
  | PList subscriptions =>
      (* Exists, add callback to list of callbacks: the entry is
         updated with what [append] returns *)
      store_internal_subscriptions
        (<[topic := snd (list_append subscriptions callback)]> d) ;;;
      ret VNone
  | PNone =>
      (* Empty, create new list of callbacks *)
      store_internal_subscriptions (<[topic := PList [callback]]> d) ;;;
      ret VNone
  end.

Definition publish_global (topic : string) (message : value) : M value :=
  LOGGER_info ("Broker publish_global to " +:+ topic) ;;;
  call_rmq_client (rmq_publish topic message) ;;;
  ret VNone.

Definition publish_local (topic : string) (message : value) : M value :=
  LOGGER_info ("broker publish_local to " +:+ topic) ;;;
  d <- load_internal_subscriptions ;;
  match dict_get d topic with
  | PNone => raise (Exception_ "That subscription does not exist")
  | PList subscriptions =>
      for_each subscriptions (fun subscription => call subscription message) ;;;
      ret VNone
  end.

Definition enable_rpc_server (queue_name : string)
    (callback : callable World) : M value :=
  LOGGER_info ("broker enable_rpc_server " +:+ queue_name) ;;;
  call_rmq_client (rmq_enable_rpc_server queue_name callback) ;;;
  ret VNone.

Definition rpc_call (receiver : string) (message : value) : M value :=
  LOGGER_info ("broker rpc_call to " +:+ receiver) ;;;
  call_rmq_client (rmq_rpc_call receiver message).

Definition command_queue (queue_name : string) (callback : callable World)
  : M value :=
  LOGGER_info ("broker declaring command queue: " +:+ queue_name) ;;;
  call_rmq_client (rmq_command_queue queue_name callback) ;;;
  ret VNone.

Definition command (command_queue : string) (command : value) : M value :=
  LOGGER_info ("broker command to " +:+ command_queue) ;;;
  call_rmq_client (rmq_command command_queue command) ;;;
  ret VNone.

(** The module right after import: neither global is bound. *)
Definition imported (w : World) : broker :=
  Broker None None w [] [] [].

(** The world after the callbacks [cs] ran in turn on [m], each one
    starting where the previous one stopped. *)
Definition world_after (m : value) (w : World) (cs : list (callable World))
  : World :=
  foldl (fun w c => (c m w).1) w cs.

(** The calls [c1(m)], ..., [cn(m)]. *)
Definition calls_of (m : value) (cs : list (callable World))
  : list (callable World * value) :=
  (fun c => (c, m)) <$> cs.

(** ** Sequences of facade calls *)

(** One call of a facade function, with its arguments. *)
Inductive op : Type :=
  | Start (log_queue : option LogQueue)
          (connection_parameters : option ConnParams)
  | Stop
  | Subscribe_global (topic : string) (callback : callable World)
  | Subscribe_local (topic : string) (callback : callable World)
  | Publish_global (topic : string) (message : value)
  | Publish_local (topic : string) (message : value)
  | Enable_rpc_server (queue_name : string) (callback : callable World)
  | Rpc_call (receiver : string) (message : value)
  | Command_queue (queue_name : string) (callback : callable World)
  | Command (command_queue : string) (command : value).

Definition run_op (o : op) : M value :=
  match o with
  | Start lq cp => start lq cp
  | Stop => stop
  | Subscribe_global t cb => subscribe_global t cb
  | Subscribe_local t cb => subscribe_local t cb
  | Publish_global t m => publish_global t m
  | Publish_local t m => publish_local t m
  | Enable_rpc_server q cb => enable_rpc_server q cb
  | Rpc_call q m => rpc_call q m
  | Command_queue q cb => command_queue q cb
  | Command q m => command q m
  end.

(** A caller that makes the calls in turn and goes on after a call that
    raised (it caught the exception). *)
Fixpoint run_ops (os : list op) (st : broker) : broker :=
  match os with
  | [] => st
  | o :: os' => run_ops os' (run_op o st).1
  end.

(** The record each function hands to [LOGGER.info] on entry. *)
Definition intent (o : op) : string :=
  match o with
  | Start _ _ => "broker start"
  | Stop => "broker stop"
  | Subscribe_global t _ => "broker subscribe_global to " +:+ t
  | Subscribe_local t _ => "Broker subscribe_local to " +:+ t
  | Publish_global t _ => "Broker publish_global to " +:+ t
  | Publish_local t _ => "broker publish_local to " +:+ t
  | Enable_rpc_server q _ => "broker enable_rpc_server " +:+ q
  | Rpc_call q _ => "broker rpc_call to " +:+ q
  | Command_queue q _ => "broker declaring command queue: " +:+ q
  | Command q _ => "broker command to " +:+ q
  end.

(** The client method a function hands its arguments to; [start] and the
    two local functions have none. *)
Definition method_of (o : op)
  : option (Client -> World -> Client * World * outcome value) :=
  match o with
  | Stop => Some rmq_stop
  | Subscribe_global t cb => Some (rmq_subscribe t cb)
  | Publish_global t m => Some (rmq_publish t m)
  | Enable_rpc_server q cb => Some (rmq_enable_rpc_server q cb)
  | Rpc_call q m => Some (rmq_rpc_call q m)
  | Command_queue q cb => Some (rmq_command_queue q cb)
  | Command q m => Some (rmq_command q m)
  | Start _ _ | Subscribe_local _ _ | Publish_local _ _ => None
  end.

Definition is_rpc_call (o : op) : bool :=
  match o with Rpc_call _ _ => true | _ => false end.

(** [subscribe_local(T, c)] for each [c] of a list, in turn. *)
Fixpoint subscribe_all (T : string) (cs : list (callable World))
    (st : broker) : broker :=
  match cs with
  | [] => st
  | c :: cs' => subscribe_all T cs' (subscribe_local T c st).1
  end.

(** Every entry of the registry that is a list holds one callback. *)
Definition entries_hold_one (d : gmap string (pyobj World)) : Prop :=
  forall T cs, d !! T = Some (PList cs) -> length cs = 1.

End Broker.

(** ** A loopback transport, to run the facade on concrete inputs *)

Module Loopback.

(** The callbacks of the examples write to a journal: who was called,
    and with what. *)
Definition journal : Type := list (string * value).

(** Modelled from the spec: the transport client of section 6 (connect,
    disconnect, publish, subscribe, rpcCall with its error kinds,
    enableRpcServer, commandSend, commandServe); the package
    [rabbitmq_client] is not part of the repository.  This one keeps
    everything in memory and answers an RPC call by running the server
    registered for the queue. *)
Record client : Type := Client {
  connected : bool;
  rpc_client_enabled : bool;
  subscribers : list (string * callable journal);
  rpc_servers : gmap string (callable journal);
  command_queues : gmap string (callable journal);
  sent : list (string * value)
}.

Definition connect (log_queue : option unit) (address : option string)
  : outcome client :=
  match address with
  | Some "unreachable" => Raised (PyExn "ConnectionError" "connect failed")
  | _ => Returned (Client false false [] ∅ ∅ [])
  end.

Definition run (c : client) (w : journal) : client * journal * outcome value :=
  (Client true (rpc_client_enabled c) (subscribers c) (rpc_servers c)
          (command_queues c) (sent c), w, Returned VNone).

Definition enable_rpc_client (c : client) (w : journal)
  : client * journal * outcome value :=
  (Client (connected c) true (subscribers c) (rpc_servers c)
          (command_queues c) (sent c), w, Returned VNone).

(** [disconnect(handle)] has no error result. *)
Definition disconnect (c : client) (w : journal)
  : client * journal * outcome value :=
  (Client false (rpc_client_enabled c) (subscribers c) (rpc_servers c)
          (command_queues c) (sent c), w, Returned VNone).

Definition subscribe (topic : string) (handler : callable journal)
    (c : client) (w : journal) : client * journal * outcome value :=
  (Client (connected c) (rpc_client_enabled c)
          (subscribers c ++ [(topic, handler)]) (rpc_servers c)
          (command_queues c) (sent c), w, Returned VNone).

Definition send (dest : string) (payload : value) (c : client) (w : journal)
  : client * journal * outcome value :=
  (Client (connected c) (rpc_client_enabled c) (subscribers c)
          (rpc_servers c) (command_queues c) (sent c ++ [(dest, payload)]),
   w, Returned VNone).

Definition serve_rpc (queue_name : string) (handler : callable journal)
    (c : client) (w : journal) : client * journal * outcome value :=
  (Client (connected c) (rpc_client_enabled c) (subscribers c)
          (<[queue_name := handler]> (rpc_servers c)) (command_queues c)
          (sent c), w, Returned VNone).

Definition serve_commands (queue_name : string) (handler : callable journal)
    (c : client) (w : journal) : client * journal * outcome value :=
  (Client (connected c) (rpc_client_enabled c) (subscribers c)
          (rpc_servers c) (<[queue_name := handler]> (command_queues c))
          (sent c), w, Returned VNone).

(** [rpcCall -> bytes | error{no-receiver, timeout, transport-failure}]. *)
Definition call_rpc (queue_name : string) (request : value)
    (c : client) (w : journal) : client * journal * outcome value :=
  if connected c then
    match rpc_servers c !! queue_name with
    | Some handler => let '(w', r) := handler request w in (c, w', r)
    | None => (c, w, Raised (PyExn "RPCError" "no-receiver"))
    end
  else (c, w, Raised (PyExn "RPCError" "transport-failure")).

#[export] Instance transport : RMQClient journal unit string client := {
  rmq_init := connect;
  rmq_start := run;
  rmq_enable_rpc_client := enable_rpc_client;
  rmq_stop := disconnect;
  rmq_subscribe := subscribe;
  rmq_publish := send;
  rmq_enable_rpc_server := serve_rpc;
  rmq_rpc_call := call_rpc;
  rmq_command_queue := serve_commands;
  rmq_command := send
}.

(** A subscriber that writes its name and the message to the journal. *)
Definition logging (name : string) : callable journal :=
  fun m w => (w ++ [(name, m)], Returned VNone).

(** A subscriber that raises. *)
Definition failing (name : string) : callable journal :=
  fun m w => (w ++ [(name, m)], Raised (PyExn "ValueError" name)).

(** An RPC server that answers with the request. *)
Definition echoHandler : callable journal :=
  fun m w => (w, Returned m).

(** Running a list of facade calls from a state, up to the first one
    that raises; the outcome is that of the last call made. *)
Fixpoint run_all (ops : list (M (World:=journal) (Client:=client) value))
    (st : broker) : broker * outcome value :=
  match ops with
  | [] => (st, Returned VNone)
  | [op] => op st
  | op :: ops' =>
      match op st with
      | (st', Returned _) => run_all ops' st'
      | (st', Raised e) => (st', Raised e)
      end
  end.

Definition fresh : broker (World:=journal) (Client:=client) := imported [].

(** The broker after [start()]. *)
Definition running : broker := (start None None fresh).1.

(** The broker after [start()] and [subscribe_local("orders", A)]. *)
Definition subscribed_A : broker :=
  (run_all [start None None; subscribe_local "orders" (logging "A")]
           fresh).1.

(** Then [subscribe_local("orders", B)]. *)
Definition subscribed_A_B : broker :=
  (run_all [start None None; subscribe_local "orders" (logging "A");
            subscribe_local "orders" (logging "B")] fresh).1.

(** The broker after [start()], [subscribe_local("orders", A)] and
    [stop()]. *)
Definition stopped_A : broker :=
  (run_all [start None None; subscribe_local "orders" (logging "A"); stop]
           fresh).1.

(** The broker after [start()] and [stop()]. *)
Definition stopped : broker := (run_all [start None None; stop] fresh).1.

(** The broker after [start()] and [enable_rpc_server("echo", echoHandler)]. *)
Definition echo_served : broker :=
  (run_all [start None None; enable_rpc_server "echo" echoHandler] fresh).1.

(** A running broker whose registry holds, for "orders", the list of the
    two callbacks [A] and [B]. *)
Definition orders_A_B : broker :=
  Broker (Some {[ "orders" := PList [logging "A"; logging "B"] ]})
         (_rmq_client running) [] [] (log running) [].

(** The same with a first subscriber that raises. *)
Definition orders_failing_B : broker :=
  Broker (Some {[ "orders" := PList [failing "A"; logging "B"] ]})
         (_rmq_client running) [] [] (log running) [].

(** A transport like the loopback one whose [start] cannot connect: the
    broker refuses the connection. *)
Definition refused (c : client) (w : journal)
  : client * journal * outcome value :=
  (c, w, Raised (PyExn "ConnectionError" "connection refused")).

Definition refusing_transport : RMQClient journal unit string client := {|
  rmq_init := connect;
  rmq_start := refused;
  rmq_enable_rpc_client := enable_rpc_client;
  rmq_stop := disconnect;
  rmq_subscribe := subscribe;
  rmq_publish := send;
  rmq_enable_rpc_server := serve_rpc;
  rmq_rpc_call := call_rpc;
  rmq_command_queue := serve_commands;
  rmq_command := send
|}.

End Loopback.

(** Closed goals on the loopback transport are settled by evaluation. *)
Ltac run := vm_compute; reflexivity.

(** ** Facts about the monad and the fan-out loop *)

Section BrokerFacts.
Context {World LogQueue ConnParams Client : Type}.
Context `{!RMQClient World LogQueue ConnParams Client}.

Implicit Types (st : broker (World:=World) (Client:=Client)).
Implicit Types (d : gmap string (pyobj World)).
Implicit Types (cs : list (callable World)).

(** The loop of [publish_local]: it calls a prefix of the list, in the
    order of the list and on [m], touches nothing but the world and the
    record of calls, and stops early only at a callback that raised. *)
Lemma for_each_call cs m st :
  ∃ st' r k,
    for_each cs (fun subscription => call subscription m) st = (st', r)
    ∧ k ≤ length cs
    ∧ calls st' = calls st ++ calls_of m (take k cs)
    ∧ world st' = world_after m (world st) (take k cs)
    ∧ _internal_subscriptions st' = _internal_subscriptions st
    ∧ _rmq_client st' = _rmq_client st
    ∧ log st' = log st
    ∧ orphans st' = orphans st
    ∧ match r with
      | Returned _ => k = length cs
      | Raised e =>
          ∃ j c, k = S j ∧ cs !! j = Some c
            ∧ (c m (world_after m (world st) (take j cs))).2 = Raised e
      end.
Proof.
  revert st. induction cs as [|c cs IH]; intros st.
  - exists st, (Returned tt), 0. simpl. rewrite app_nil_r. by repeat split.
  - simpl. unfold bind at 1, call at 1.
    destruct (c m (world st)) as [w' [v|e]] eqn:Hc.
    + match goal with |- context [for_each cs _ ?s] => destruct (IH s)
        as (st' & r & k & Hrun & Hk & Hcalls & Hw & Hd & Hcl & Hlog & Horph & Hr)
      end.
      simpl in *. exists st', r, (S k). rewrite Hrun. simpl.
      split; [done|]. split; [lia|].
      split; [by rewrite Hcalls, <- app_assoc|].
      split; [by rewrite Hc|].
      repeat (split; [done|]).
      destruct r as [u|e]; [by rewrite Hr|].
      destruct Hr as (j & c' & -> & Hj & He).
      exists (S j), c'. simpl. rewrite Hc. by repeat split.
    + eexists _, (Raised e), 1. simpl. split; [done|].
      split; [lia|]. rewrite Hc.
      repeat (split; [done|]).
      exists 0, c. simpl. by rewrite Hc.
Qed.

(** When every callback of the list returns, the loop goes through the
    whole list. *)
Lemma for_each_call_all cs m st :
  (∀ c w, c ∈ cs → ∃ v, (c m w).2 = Returned v) →
  ∃ st',
    for_each cs (fun subscription => call subscription m) st
      = (st', Returned tt)
    ∧ calls st' = calls st ++ calls_of m cs
    ∧ world st' = world_after m (world st) cs
    ∧ _internal_subscriptions st' = _internal_subscriptions st
    ∧ _rmq_client st' = _rmq_client st
    ∧ log st' = log st
    ∧ orphans st' = orphans st.
Proof.
  intros Hret.
  destruct (for_each_call cs m st)
    as (st' & r & k & Hrun & Hk & Hcalls & Hw & Hd & Hcl & Hlog & Horph & Hr).
  destruct r as [[]|e].
  - subst k. rewrite firstn_all in *. by exists st'.
  - destruct Hr as (j & c & _ & Hj & He).
    destruct (Hret c (world_after m (world st) (take j cs))) as [v Hv].
    + apply list_elem_of_lookup. by exists j.
    + congruence.
Qed.

(** [publish_local] on a bound registry, by what the entry of the topic
    holds. *)
Lemma publish_local_None T m st d :
  _internal_subscriptions st = Some d →
  dict_get d T = PNone →
  publish_local T m st
  = (Broker (Some d) (_rmq_client st) (world st) (calls st)
            (log st ++ ["broker publish_local to " +:+ T]) (orphans st),
     Raised (Exception_ "That subscription does not exist")).
Proof.
  intros Hd HT. unfold publish_local, bind, LOGGER_info,
    load_internal_subscriptions, raise. simpl.
  by rewrite Hd, HT.
Qed.

Lemma publish_local_list T m st d cs :
  _internal_subscriptions st = Some d →
  dict_get d T = PList cs →
  publish_local T m st
  = match for_each cs (fun subscription => call subscription m)
            (LOGGER_info ("broker publish_local to " +:+ T) st).1 with
    | (st', Returned _) => (st', Returned VNone)
    | (st', Raised e) => (st', Raised e)
    end.
Proof.
  intros Hd HT. unfold publish_local, bind, LOGGER_info,
    load_internal_subscriptions, ret. simpl.
  rewrite Hd, HT.
  by destruct (for_each cs _ _) as [st' [u|e]].
Qed.

Lemma dict_get_absent d T : d !! T = None → dict_get d T = PNone.
Proof. intros HT. unfold dict_get. by rewrite HT. Qed.

Lemma dict_get_present d T v : d !! T = Some v → dict_get d T = v.
Proof. intros HT. unfold dict_get. by rewrite HT. Qed.

(** C2: on a broker whose registry has no entry for topic [T],
    [publish_local(T, m)] raises the exception of the local registry,
    "That subscription does not exist", and calls no callback: the record
    of calls and the world of the callbacks are as before. *)
Theorem publish_local_without_subscribers T m st d :
  _internal_subscriptions st = Some d →
  d !! T = None →
  ∃ st',
    publish_local T m st
      = (st', Raised (Exception_ "That subscription does not exist"))
    ∧ calls st' = calls st
    ∧ world st' = world st.
Proof.
  intros Hd HT. eexists. split.
  - apply publish_local_None; [done | by apply dict_get_absent].
  - done.
Qed.

(** C3: when the registry entry of topic [T] holds the callbacks
    [c1..cn], [publish_local(T, m)] calls them in the order of the list,
    each on the same [m] and each in the world the previous one left.
    It calls [c1..ck] for some [k]; when it returns, [k = n]; when it
    raises, the exception is the one [ck] raised.  When every callback
    returns, it returns [None] after calling all of [c1..cn]. *)
Theorem publish_local_in_registration_order T m st d cs :
  _internal_subscriptions st = Some d →
  d !! T = Some (PList cs) →
  ∃ st' r k,
    publish_local T m st = (st', r)
    ∧ k ≤ length cs
    ∧ calls st' = calls st ++ calls_of m (take k cs)
    ∧ world st' = world_after m (world st) (take k cs)
    ∧ match r with
      | Returned v => v = VNone ∧ k = length cs
      | Raised e =>
          ∃ j c, k = S j ∧ cs !! j = Some c
            ∧ (c m (world_after m (world st) (take j cs))).2 = Raised e
      end
    ∧ ((∀ c w, c ∈ cs → ∃ v, (c m w).2 = Returned v) →
       r = Returned VNone
       ∧ calls st' = calls st ++ calls_of m cs
       ∧ world st' = world_after m (world st) cs).
Proof.
  intros Hd HT. apply dict_get_present in HT.
  rewrite (publish_local_list T m st d cs Hd HT).
  set (st0 := (LOGGER_info _ st).1).
  destruct (for_each_call cs m st0)
    as (st' & r & k & Hrun & Hk & Hcalls & Hw & _ & _ & _ & _ & Hr).
  rewrite Hrun. change (calls st0) with (calls st) in *.
  change (world st0) with (world st) in *.
  destruct r as [u|e].
  - exists st', (Returned VNone), k. do 5 (split; [done|]).
    intros _. subst k. by rewrite firstn_all in *.
  - exists st', (Raised e), k. do 5 (split; [done|]).
    intros Hret. destruct Hr as (j & c & _ & Hj & He).
    destruct (Hret c (world_after m (world st) (take j cs))) as [v Hv].
    + apply list_elem_of_lookup. by exists j.
    + congruence.
Qed.

(** C10: when [publish_local(T, m)] fails because the registry has
    nothing for [T], the registry is the same dict as before the call,
    so every topic has the entry it had, and the client, the world of
    the callbacks and the record of calls are unchanged too: only the
    log record written on entry is new. *)
Theorem publish_local_failure_leaves_registry T m st d :
  _internal_subscriptions st = Some d →
  dict_get d T = PNone →
  ∃ st',
    publish_local T m st
      = (st', Raised (Exception_ "That subscription does not exist"))
    ∧ _internal_subscriptions st' = Some d
    ∧ (∀ d' T', _internal_subscriptions st' = Some d' →
                dict_get d' T' = dict_get d T')
    ∧ _rmq_client st' = _rmq_client st
    ∧ world st' = world st
    ∧ calls st' = calls st
    ∧ orphans st' = orphans st
    ∧ log st' = log st ++ ["broker publish_local to " +:+ T].
Proof.
  intros Hd HT. eexists. split; [by apply publish_local_None|].
  simpl. repeat (split; [done|]).
  split; [|done]. by intros d' T' [= <-].
Qed.

(** ** [subscribe_local] *)

Lemma subscribe_local_new T c st d :
  _internal_subscriptions st = Some d →
  dict_get d T = PNone →
  subscribe_local T c st
  = (Broker (Some (<[T := PList [c]]> d)) (_rmq_client st) (world st)
            (calls st) (log st ++ ["Broker subscribe_local to " +:+ T])
            (orphans st),
     Returned VNone).
Proof.
  intros Hd HT. unfold subscribe_local, bind, LOGGER_info,
    load_internal_subscriptions, store_internal_subscriptions, ret. simpl.
  by rewrite Hd, HT.
Qed.

(** The entry of a topic that has subscribers becomes [None]. *)
Lemma subscribe_local_again T c st d cs :
  _internal_subscriptions st = Some d →
  dict_get d T = PList cs →
  subscribe_local T c st
  = (Broker (Some (<[T := PNone]> d)) (_rmq_client st) (world st)
            (calls st) (log st ++ ["Broker subscribe_local to " +:+ T])
            (orphans st),
     Returned VNone).
Proof.
  intros Hd HT. unfold subscribe_local, bind, LOGGER_info,
    load_internal_subscriptions, store_internal_subscriptions, ret. simpl.
  by rewrite Hd, HT.
Qed.

Lemma dict_get_insert d T v : dict_get (<[T := v]> d) T = v.
Proof. unfold dict_get. by rewrite lookup_insert_eq. Qed.

(** Two subscriptions to a topic that had none, on any running broker:
    the publish that follows finds no subscription and calls nobody. *)
Lemma subscribe_local_twice_then_publish T c1 c2 m st d :
  _internal_subscriptions st = Some d →
  dict_get d T = PNone →
  ∃ st1 st2 st3,
    subscribe_local T c1 st = (st1, Returned VNone)
    ∧ subscribe_local T c2 st1 = (st2, Returned VNone)
    ∧ publish_local T m st2
      = (st3, Raised (Exception_ "That subscription does not exist"))
    ∧ calls st3 = calls st
    ∧ world st3 = world st.
Proof.
  intros Hd HT. do 3 eexists.
  split; [by apply subscribe_local_new|].
  split; [by eapply subscribe_local_again; [|apply dict_get_insert]|].
  split; [by eapply publish_local_None; [|apply dict_get_insert]|].
  done.
Qed.

(** ** Calls that go to the transport client *)

Lemma call_rmq_client_bound meth st c :
  _rmq_client st = Some c →
  call_rmq_client meth st
  = (Broker (_internal_subscriptions st) (Some (meth c (world st)).1.1)
            (meth c (world st)).1.2 (calls st) (log st) (orphans st),
     (meth c (world st)).2).
Proof.
  intros Hc. unfold call_rmq_client. rewrite Hc.
  by destruct (meth c (world st)) as [[c' w'] r].
Qed.

(** [rpc_call] hands the outcome of the client's [rpc_call] to its
    caller as it is, a reply or an exception. *)
Lemma rpc_call_forwards Q q st c :
  _rmq_client st = Some c →
  (rpc_call Q q st).2 = (rmq_rpc_call Q q c (world st)).2.
Proof.
  intros Hc. unfold rpc_call, bind, LOGGER_info. simpl.
  by rewrite (call_rmq_client_bound _ _ c).
Qed.

(** C7: when the transport client answers the request [q] on queue [Q]
    with the reply [R] (the server registered for [Q] returned [R]),
    [rpc_call(Q, q)] returns exactly [R]; the client and the world are
    the ones the transport call left, and the registry is untouched. *)
Theorem rpc_call_returns_the_reply Q q R st c c' w' :
  _rmq_client st = Some c →
  rmq_rpc_call Q q c (world st) = (c', w', Returned R) →
  ∃ st',
    rpc_call Q q st = (st', Returned R)
    ∧ _rmq_client st' = Some c'
    ∧ world st' = w'
    ∧ _internal_subscriptions st' = _internal_subscriptions st
    ∧ calls st' = calls st.
Proof.
  intros Hc Hcall. unfold rpc_call, bind, LOGGER_info. simpl.
  rewrite (call_rmq_client_bound _ _ c) by done. simpl.
  rewrite Hcall. by eexists.
Qed.

(** ** [start] and [stop] *)

(** [start], step by step: the registry is rebound first, then the
    client is built, bound, started and given its RPC client. *)
Lemma start_steps lq cp st :
  start lq cp st
  = let log' := log st ++ ["broker start"] in
    match rmq_init lq cp with
    | Raised e =>
        (Broker (Some ∅) (_rmq_client st) (world st) (calls st) log'
                (orphans st), Raised e)
    | Returned c0 =>
        let orphans' := match _rmq_client st with
                        | Some old => orphans st ++ [old]
                        | None => orphans st
                        end in
        match rmq_start c0 (world st) with
        | (c1, w1, Raised e) =>
            (Broker (Some ∅) (Some c1) w1 (calls st) log' orphans', Raised e)
        | (c1, w1, Returned _) =>
            match rmq_enable_rpc_client c1 w1 with
            | (c2, w2, Raised e) =>
                (Broker (Some ∅) (Some c2) w2 (calls st) log' orphans',
                 Raised e)
            | (c2, w2, Returned _) =>
                (Broker (Some ∅) (Some c2) w2 (calls st) log' orphans',
                 Returned VNone)
            end
        end
    end.
Proof.
  unfold start, bind, LOGGER_info, store_internal_subscriptions,
    new_RMQClient, store_rmq_client, call_rmq_client, ret. simpl.
  destruct (rmq_init lq cp) as [c0|e]; [|done]. simpl.
  destruct (rmq_start c0 (world st)) as [[c1 w1] [v1|e1]]; [|done]. simpl.
  by destruct (rmq_enable_rpc_client c1 w1) as [[c2 w2] [v2|e2]].
Qed.

(** [stop], by whether the global [_rmq_client] is bound. *)
Lemma stop_steps st :
  stop st
  = let log' := log st ++ ["broker stop"] in
    match _rmq_client st with
    | None =>
        (Broker (_internal_subscriptions st) None (world st) (calls st)
                log' (orphans st), Raised (NameError "_rmq_client"))
    | Some c =>
        match rmq_stop c (world st) with
        | (c', w', r) =>
            (Broker (_internal_subscriptions st) (Some c') w' (calls st)
                    log' (orphans st),
             match r with
             | Returned _ => Returned VNone
             | Raised e => Raised e
             end)
        end
    end.
Proof.
  unfold stop, bind, LOGGER_info, call_rmq_client, ret. simpl.
  destruct (_rmq_client st) as [c|]; [|done].
  by destruct (rmq_stop c (world st)) as [[c' w'] [v|e]].
Qed.

(** C8: whenever [start] returns, the client was built from the given
    configuration, started, and then given its RPC client, in that
    order, and the global [_rmq_client] is bound to the result.  [start]
    takes nothing but the configuration: no RPC server plays a part. *)
Theorem start_enables_rpc_client lq cp st st' v :
  start lq cp st = (st', Returned v) →
  ∃ c0 c1 w1 v1 c2 w2 v2,
    rmq_init lq cp = Returned c0
    ∧ rmq_start c0 (world st) = (c1, w1, Returned v1)
    ∧ rmq_enable_rpc_client c1 w1 = (c2, w2, Returned v2)
    ∧ _rmq_client st' = Some c2
    ∧ world st' = w2
    ∧ _internal_subscriptions st' = Some ∅
    ∧ v = VNone.
Proof.
  rewrite start_steps. simpl.
  destruct (rmq_init lq cp) as [c0|e]; [|done].
  destruct (rmq_start c0 (world st)) as [[c1 w1] [v1|e1]] eqn:H1; [|done].
  destruct (rmq_enable_rpc_client c1 w1) as [[c2 w2] [v2|e2]] eqn:H2; [|done].
  intros [= <- <-]. by exists c0, c1, w1, v1, c2, w2, v2.
Qed.

(** C9: [start] on a broker that is already running (both globals
    bound, no [stop] needed in between) raises nothing of its own: its
    outcome is that of a first [start] in the same world.  When it
    returns, the global [_rmq_client] is bound to a client newly built
    from the configuration, the previous client is dropped as it was
    (nothing stopped it), and the registry is the empty dict: a
    [publish_local] on any topic finds no subscription and calls
    nobody. *)
Theorem start_again_replaces_client_and_registry lq cp st c d st' v :
  _rmq_client st = Some c →
  _internal_subscriptions st = Some d →
  start lq cp st = (st', Returned v) →
  (start lq cp st).2 = (start lq cp (imported (world st))).2
  ∧ _internal_subscriptions st' = Some ∅
  ∧ (∃ c0 c1 w1 v1 c2 w2 v2,
       rmq_init lq cp = Returned c0
       ∧ rmq_start c0 (world st) = (c1, w1, Returned v1)
       ∧ rmq_enable_rpc_client c1 w1 = (c2, w2, Returned v2)
       ∧ _rmq_client st' = Some c2)
  ∧ orphans st' = orphans st ++ [c]
  ∧ (∀ T m, ∃ st'',
       publish_local T m st'
         = (st'', Raised (Exception_ "That subscription does not exist"))
       ∧ calls st'' = calls st'
       ∧ world st'' = world st').
Proof.
  intros Hc Hd. rewrite !start_steps. simpl. rewrite Hc.
  destruct (rmq_init lq cp) as [c0|e]; [|done].
  destruct (rmq_start c0 (world st)) as [[c1 w1] [v1|e1]] eqn:H1; [|done].
  destruct (rmq_enable_rpc_client c1 w1) as [[c2 w2] [v2|e2]] eqn:H2; [|done].
  intros [= <- <-]. simpl. do 2 (split; [done|]).
  split; [by exists c0, c1, w1, v1, c2, w2, v2|].
  split; [done|].
  intros T m. eexists. split; [by apply publish_local_None|done].
Qed.

(** C4, as the code has it: the facade has no lifecycle guard.  Before
    the first [start] (neither global bound) every operation but [start]
    raises a [NameError].  [stop] leaves both globals bound and the
    registry as it is, so after it [publish_local] works as on a running
    broker (it raises for a topic without subscription, and calls the
    subscribers of the others), while [subscribe_global] and [rpc_call]
    go to the stopped client and end as the client's method ends. *)
Theorem lifecycle_is_not_guarded st0 st c d :
  _rmq_client st0 = None →
  _internal_subscriptions st0 = None →
  _rmq_client st = Some c →
  _internal_subscriptions st = Some d →
  ((stop st0).2 = Raised (NameError "_rmq_client")
   ∧ ∀ T cb m,
       (subscribe_global T cb st0).2 = Raised (NameError "_rmq_client")
       ∧ (subscribe_local T cb st0).2
         = Raised (NameError "_internal_subscriptions")
       ∧ (publish_global T m st0).2 = Raised (NameError "_rmq_client")
       ∧ (publish_local T m st0).2
         = Raised (NameError "_internal_subscriptions")
       ∧ (enable_rpc_server T cb st0).2 = Raised (NameError "_rmq_client")
       ∧ (rpc_call T m st0).2 = Raised (NameError "_rmq_client")
       ∧ (command_queue T cb st0).2 = Raised (NameError "_rmq_client")
       ∧ (command T m st0).2 = Raised (NameError "_rmq_client"))
  ∧ ∃ st' r c',
      stop st = (st', r)
      ∧ c' = (rmq_stop c (world st)).1.1
      ∧ _rmq_client st' = Some c'
      ∧ _internal_subscriptions st' = Some d
      ∧ (∀ T m, dict_get d T = PNone →
           (publish_local T m st').2
           = Raised (Exception_ "That subscription does not exist"))
      ∧ (∀ T m cs, dict_get d T = PList cs →
           (∀ f w, f ∈ cs → ∃ u, (f m w).2 = Returned u) →
           ∃ st'', publish_local T m st' = (st'', Returned VNone)
                   ∧ calls st'' = calls st' ++ calls_of m cs)
      ∧ (∀ T cb,
           (subscribe_global T cb st').2
           = match (rmq_subscribe T cb c' (world st')).2 with
             | Returned _ => Returned VNone
             | Raised e => Raised e
             end)
      ∧ (∀ Q q, (rpc_call Q q st').2 = (rmq_rpc_call Q q c' (world st')).2).
Proof.
  intros Hc0 Hd0 Hc Hd. split.
  - split; [by rewrite stop_steps, Hc0|].
    intros T cb m.
    unfold subscribe_global, subscribe_local, publish_global, publish_local,
      enable_rpc_server, rpc_call, command_queue, command, bind,
      LOGGER_info, load_internal_subscriptions, call_rmq_client. simpl.
    by rewrite Hc0, Hd0.
  - rewrite stop_steps, Hc. simpl.
    destruct (rmq_stop c (world st)) as [[c' w'] r] eqn:Hstop.
    eexists _, _, c'. split; [done|]. simpl. do 3 (split; [done|]).
    split; [|split; [|split]].
    + intros T m HT. by erewrite publish_local_None.
    + intros T m cs HT Hret.
      erewrite publish_local_list; [|done..].
      match goal with |- context [for_each cs _ ?s] =>
        destruct (for_each_call_all cs m s Hret) as (st'' & -> & Hcalls & _)
      end.
      by exists st''.
    + intros T cb. unfold subscribe_global, bind, LOGGER_info, ret. simpl.
      erewrite call_rmq_client_bound by done. simpl.
      by destruct (rmq_subscribe T cb c' w') as [[c'' w''] [u|e]].
    + intros Q q. by erewrite rpc_call_forwards.
Qed.

(** C6, as the code has it: [stop] has no check of its own.  When the
    global [_rmq_client] was never bound it raises the [NameError] of
    that name; when it is bound, also to a client stopped before, it
    calls the client's [stop] once more and ends as that call ends.  The
    registry stays as it is either way. *)
Theorem stop_is_not_guarded st :
  match _rmq_client st with
  | None =>
      ∃ st', stop st = (st', Raised (NameError "_rmq_client"))
             ∧ _rmq_client st' = None
             ∧ _internal_subscriptions st' = _internal_subscriptions st
  | Some c =>
      ∃ st', stop st
             = (st', match (rmq_stop c (world st)).2 with
                     | Returned _ => Returned VNone
                     | Raised e => Raised e
                     end)
             ∧ _rmq_client st' = Some (rmq_stop c (world st)).1.1
             ∧ world st' = (rmq_stop c (world st)).1.2
             ∧ _internal_subscriptions st' = _internal_subscriptions st
  end.
Proof.
  rewrite stop_steps. simpl.
  destruct (_rmq_client st) as [c|]; [|by eexists].
  destruct (rmq_stop c (world st)) as [[c' w'] r]. by eexists.
Qed.

End BrokerFacts.

(** ** The facade as a whole: what each function touches *)

Section FacadeFacts.
Context {World LogQueue ConnParams Client : Type}.
Context `{!RMQClient World LogQueue ConnParams Client}.

Implicit Types (st : broker (World:=World) (Client:=Client)).
Implicit Types (d : gmap string (pyobj World)).
Implicit Types (cs : list (callable World)).
Implicit Types (o : op (World:=World) (LogQueue:=LogQueue)
                       (ConnParams:=ConnParams)).

(** A function that hands its arguments to a client method: with the
    global unbound it raises the [NameError]; otherwise the method runs
    once, the client and the world are the ones it leaves, and its outcome
    is the outcome of the call, with the returned value replaced by [None]
    except in [rpc_call]. *)
Lemma run_op_delegates o meth st :
  method_of o = Some meth →
  run_op o st
  = match _rmq_client st with
    | None =>
        (Broker (_internal_subscriptions st) None (world st) (calls st)
                (log st ++ [intent o]) (orphans st),
         Raised (NameError "_rmq_client"))
    | Some c =>
        (Broker (_internal_subscriptions st) (Some (meth c (world st)).1.1)
                (meth c (world st)).1.2 (calls st) (log st ++ [intent o])
                (orphans st),
         match (meth c (world st)).2 with
         | Returned v => Returned (if is_rpc_call o then v else VNone)
         | Raised e => Raised e
         end)
    end.
Proof.
  intros Hm.
  destruct (_rmq_client st) as [c|] eqn:Hc.
  - destruct o; simpl in Hm; try discriminate; injection Hm as <-; simpl;
      unfold stop, subscribe_global, publish_global, enable_rpc_server,
        rpc_call, command_queue, command, bind, ret, LOGGER_info; simpl;
      (erewrite call_rmq_client_bound by (simpl; exact Hc)); simpl;
      match goal with
      | |- context [(?meth c (world st)).2] =>
          by destruct (meth c (world st)) as [[c' w'] [v|e]]
      end.
  - destruct o; simpl in Hm; try discriminate; injection Hm as <-; simpl;
      unfold stop, subscribe_global, publish_global, enable_rpc_server,
        rpc_call, command_queue, command, bind, ret, LOGGER_info,
        call_rmq_client; simpl; by rewrite Hc.
Qed.

(** [publish_local], whatever happens in it: the registry, the client and
    the dropped clients are as before, and the log has one more record. *)
Lemma publish_local_frame T m st :
  _internal_subscriptions (publish_local T m st).1
    = _internal_subscriptions st
  ∧ _rmq_client (publish_local T m st).1 = _rmq_client st
  ∧ orphans (publish_local T m st).1 = orphans st
  ∧ log (publish_local T m st).1
    = log st ++ ["broker publish_local to " +:+ T].
Proof.
  destruct (_internal_subscriptions st) as [d|] eqn:Hd.
  - destruct (dict_get d T) as [|cs] eqn:HT.
    + by rewrite (publish_local_None T m st d Hd HT).
    + rewrite (publish_local_list T m st d cs Hd HT).
      match goal with |- context [for_each cs _ ?s] =>
        destruct (for_each_call cs m s)
          as (st' & r & k & -> & _ & _ & _ & Hreg & Hcl & Hlog & Horph & _)
      end.
      simpl in *. destruct r; simpl; by rewrite Hreg, Hd.
  - unfold publish_local, bind, LOGGER_info, load_internal_subscriptions.
    simpl. by rewrite Hd.
Qed.

(** [subscribe_local] on a bound registry: the entry of the topic becomes
    the one-callback list when it was [None] or absent, and [None] when it
    was a list. *)
Lemma subscribe_local_steps T c st d :
  _internal_subscriptions st = Some d →
  subscribe_local T c st
  = (Broker (Some (<[T := match dict_get d T with
                          | PNone => PList [c]
                          | PList _ => PNone
                          end]> d))
            (_rmq_client st) (world st) (calls st)
            (log st ++ ["Broker subscribe_local to " +:+ T]) (orphans st),
     Returned VNone).
Proof.
  intros Hd. destruct (dict_get d T) as [|cs] eqn:HT.
  - by apply subscribe_local_new.
  - by eapply subscribe_local_again.
Qed.

Lemma subscribe_local_unbound T c st :
  _internal_subscriptions st = None →
  subscribe_local T c st
  = (Broker None (_rmq_client st) (world st) (calls st)
            (log st ++ ["Broker subscribe_local to " +:+ T]) (orphans st),
     Raised (NameError "_internal_subscriptions")).
Proof.
  intros Hd. unfold subscribe_local, bind, LOGGER_info,
    load_internal_subscriptions. simpl. by rewrite Hd.
Qed.

(** After [start], whatever its outcome, the registry is the empty dict. *)
Lemma start_registry lq cp st :
  _internal_subscriptions (start lq cp st).1 = Some ∅.
Proof.
  rewrite start_steps. simpl.
  destruct (rmq_init lq cp) as [c0|e]; [|done].
  destruct (rmq_start c0 (world st)) as [[c1 w1] [v1|e1]]; [|done].
  by destruct (rmq_enable_rpc_client c1 w1) as [[c2 w2] [v2|e2]].
Qed.

(** Every function but [start] and [subscribe_local] leaves the registry
    as it is. *)
Lemma run_op_registry o st :
  match o with
  | Start _ _ | Subscribe_local _ _ => True
  | _ => _internal_subscriptions (run_op o st).1 = _internal_subscriptions st
  end.
Proof.
  destruct o; try done;
    try (erewrite run_op_delegates by reflexivity;
         by destruct (_rmq_client st)).
  apply publish_local_frame.
Qed.

(** X1: on a running broker, a first [subscribe_local(T, c)] followed by
    [publish_local(T, m)] calls [c] on [m], once, and nothing else; the
    publish returns [None] when [c] returns and raises what [c] raises. *)
Theorem subscribe_local_then_publish_local T c m st d :
  _internal_subscriptions st = Some d →
  dict_get d T = PNone →
  ∃ st1 st2,
    subscribe_local T c st = (st1, Returned VNone)
    ∧ publish_local T m st1
      = (st2, match (c m (world st)).2 with
              | Returned _ => Returned VNone
              | Raised e => Raised e
              end)
    ∧ calls st2 = calls st ++ [(c, m)]
    ∧ world st2 = (c m (world st)).1
    ∧ _internal_subscriptions st2 = Some (<[T := PList [c]]> d).
Proof.
  intros Hd HT.
  pose proof (subscribe_local_new T c st d Hd HT) as H1.
  match type of H1 with _ = (?s, _) => set (st1 := s) in * end.
  pose proof (publish_local_list T m st1 (<[T := PList [c]]> d) [c] eq_refl
                (dict_get_insert _ _ _)) as H2.
  simpl in H2. unfold bind, call, ret in H2. simpl in H2.
  destruct (c m (world st)) as [w' [v|e]]; simpl in *;
    eexists st1, _; (split; [exact H1|]); (split; [exact H2|]); done.
Qed.

(** X2: [subscribe_local(T, c)] on a running broker always returns
    [None]; it changes the entry of [T] only: every other topic keeps its
    entry, no callback is called, and the client is not touched. *)
Theorem subscribe_local_touches_one_entry T c st d :
  _internal_subscriptions st = Some d →
  ∃ st' d',
    subscribe_local T c st = (st', Returned VNone)
    ∧ _internal_subscriptions st' = Some d'
    ∧ (∀ T', T' ≠ T → d' !! T' = d !! T')
    ∧ calls st' = calls st
    ∧ world st' = world st
    ∧ _rmq_client st' = _rmq_client st
    ∧ orphans st' = orphans st.
Proof.
  intros Hd. eexists _, _.
  split; [by apply subscribe_local_steps|]. simpl.
  split; [done|]. split; [|done].
  intros T' HT'. by rewrite lookup_insert_ne.
Qed.

Lemma subscribe_all_snoc T cs c st :
  subscribe_all T (cs ++ [c]) st
  = (subscribe_local T c (subscribe_all T cs st)).1.
Proof. revert st. induction cs as [|c' cs IH]; intros st; simpl; [done|apply IH]. Qed.

(** X3: subscribing the callbacks [c1..cn] to a topic without entry, one
    after the other, leaves the entry [None] when [n] is even and the
    one-callback list of [cn] when [n] is odd: each subscription to a topic
    that has a list wipes it, and the next one starts again.  The other
    topics keep their entries. *)
Theorem subscribe_local_alternates T cs st d :
  _internal_subscriptions st = Some d →
  dict_get d T = PNone →
  ∃ d',
    _internal_subscriptions (subscribe_all T cs st) = Some d'
    ∧ dict_get d' T
      = (if Nat.even (length cs) then PNone
         else match last cs with
              | Some c => PList [c]
              | None => PNone
              end)
    ∧ (∀ T', T' ≠ T → d' !! T' = d !! T').
Proof.
  intros Hd HT. induction cs as [|c cs IH] using rev_ind.
  - exists d. by repeat split.
  - destruct IH as (d' & Hd' & Hentry & Hother).
    rewrite subscribe_all_snoc, (subscribe_local_steps T c _ d' Hd'). simpl.
    eexists. split; [done|]. rewrite dict_get_insert.
    rewrite length_app, Nat.add_1_r, Nat.even_succ, <- Nat.negb_even.
    rewrite last_snoc. split.
    + destruct (Nat.even (length cs)) eqn:Hev; simpl.
      * by rewrite Hentry.
      * rewrite Hentry. destruct (last cs) eqn:Hlast; [done|].
        apply last_None in Hlast. by subst cs.
    + intros T' HT'. rewrite lookup_insert_ne by done. by apply Hother.
Qed.

(** Every function keeps the one-callback shape of the registry. *)
Lemma run_op_entries_hold_one o st :
  (∀ d, _internal_subscriptions st = Some d → entries_hold_one d) →
  ∀ d', _internal_subscriptions (run_op o st).1 = Some d' →
        entries_hold_one d'.
Proof.
  intros Hinv d' Hd'.
  destruct o as [lq cp| |t cb|t cb|t m|t m|q cb|q m|q cb|q m];
    try (match type of Hd' with
         | context [run_op ?o st] =>
             pose proof (run_op_registry o st) as Hreg
         end;
         apply Hinv; by rewrite <- Hreg).
  - simpl in Hd'. rewrite start_registry in Hd'. injection Hd' as <-.
    intros T cs HT. by rewrite lookup_empty in HT.
  - change (run_op (Subscribe_local t cb) st)
      with (subscribe_local t cb st) in Hd'.
    destruct (_internal_subscriptions st) as [d|] eqn:Hd.
    + rewrite (subscribe_local_steps _ _ _ d Hd) in Hd'. simpl in Hd'.
      injection Hd' as <-. intros T cs HT.
      destruct (decide (t = T)) as [->|Hne].
      * rewrite lookup_insert_eq in HT.
        destruct (dict_get d T); by simplify_eq.
      * rewrite lookup_insert_ne in HT by done. by eapply Hinv.
    + by rewrite (subscribe_local_unbound _ _ _ Hd) in Hd'.
Qed.

Lemma run_ops_entries_hold_one os st :
  (∀ d, _internal_subscriptions st = Some d → entries_hold_one d) →
  ∀ d', _internal_subscriptions (run_ops os st) = Some d' →
        entries_hold_one d'.
Proof.
  revert st. induction os as [|o os IH]; intros st Hst; [done|].
  simpl. apply IH. by apply run_op_entries_hold_one.
Qed.

(** X4: whatever calls were made since the import of the module, every
    registry entry that is a list holds exactly one callback, and so a
    [publish_local] never calls more than one callback. *)
Theorem registry_entries_hold_one_callback os w :
  (∀ d, _internal_subscriptions (run_ops os (imported w)) = Some d →
        entries_hold_one d)
  ∧ ∀ T m,
      length (calls (publish_local T m (run_ops os (imported w))).1)
      ≤ S (length (calls (run_ops os (imported w)))).
Proof.
  assert (Hinv : ∀ d, _internal_subscriptions (run_ops os (imported w))
                      = Some d → entries_hold_one d).
  { by apply run_ops_entries_hold_one. }
  split; [exact Hinv|].
  intros T m. set (st := run_ops os (imported w)) in *.
  destruct (_internal_subscriptions st) as [d|] eqn:Hd.
  - destruct (dict_get d T) as [|cs] eqn:HT.
    + rewrite (publish_local_None T m st d Hd HT). simpl. lia.
    + assert (Hlen : length cs = 1).
      { apply (Hinv d eq_refl T). unfold dict_get in HT.
        destruct (d !! T) as [v|]; by subst. }
      rewrite (publish_local_list T m st d cs Hd HT).
      match goal with |- context [for_each cs _ ?s] =>
        destruct (for_each_call cs m s)
          as (st' & r & k & -> & Hk & Hcalls & _)
      end.
      assert (length (calls st') ≤ S (length (calls st))).
      { rewrite Hcalls. simpl. unfold calls_of.
        rewrite length_app, length_fmap, length_take. lia. }
      by destruct r.
  - unfold publish_local, bind, LOGGER_info, load_internal_subscriptions.
    simpl. rewrite Hd. simpl. lia.
Qed.

(** X5: the local and the global side do not meet.  Only [start] and
    [subscribe_local] change the registry and only [publish_local] calls
    local callbacks: [start] leaves the empty registry, [subscribe_local]
    touches neither the client nor the world, [publish_local] leaves the
    registry and the client as they are, and the seven functions that go to
    the client leave the registry and call no local callback, whether they
    return or raise. *)
Theorem what_each_function_touches o st :
  match o with
  | Start _ _ =>
      _internal_subscriptions (run_op o st).1 = Some ∅
      ∧ calls (run_op o st).1 = calls st
  | Subscribe_local _ _ =>
      calls (run_op o st).1 = calls st
      ∧ world (run_op o st).1 = world st
      ∧ _rmq_client (run_op o st).1 = _rmq_client st
      ∧ orphans (run_op o st).1 = orphans st
  | Publish_local _ _ =>
      _internal_subscriptions (run_op o st).1 = _internal_subscriptions st
      ∧ _rmq_client (run_op o st).1 = _rmq_client st
      ∧ orphans (run_op o st).1 = orphans st
  | _ =>
      _internal_subscriptions (run_op o st).1 = _internal_subscriptions st
      ∧ calls (run_op o st).1 = calls st
      ∧ orphans (run_op o st).1 = orphans st
  end.
Proof.
  destruct o as [lq cp| |t cb|t cb|t m|t m|q cb|q m|q cb|q m];
    try (erewrite run_op_delegates by reflexivity;
         by destruct (_rmq_client st)).
  - split; [apply start_registry|]. simpl. rewrite start_steps. simpl.
    destruct (rmq_init lq cp) as [c0|e]; [|done].
    destruct (rmq_start c0 (world st)) as [[c1 w1] [v1|e1]]; [|done].
    by destruct (rmq_enable_rpc_client c1 w1) as [[c2 w2] [v2|e2]].
  - simpl. destruct (_internal_subscriptions st) as [d|] eqn:Hd.
    + by rewrite (subscribe_local_steps _ _ _ d Hd).
    + by rewrite (subscribe_local_unbound _ _ _ Hd).
  - simpl. destruct (publish_local_frame t m st) as (? & ? & ? & _). done.
Qed.

(** X6: a publish does not use up the subscription.  When the callbacks
    of the entry of [T] return, two [publish_local] on [T] both return
    [None], and the callbacks are called on the first message and then on
    the second, in the order of the list both times. *)
Theorem publish_local_twice T m1 m2 st d cs :
  _internal_subscriptions st = Some d →
  dict_get d T = PList cs →
  (∀ c m w, c ∈ cs → ∃ v, (c m w).2 = Returned v) →
  ∃ st1 st2,
    publish_local T m1 st = (st1, Returned VNone)
    ∧ publish_local T m2 st1 = (st2, Returned VNone)
    ∧ calls st2 = calls st ++ calls_of m1 cs ++ calls_of m2 cs
    ∧ world st2 = world_after m2 (world_after m1 (world st) cs) cs
    ∧ _internal_subscriptions st2 = Some d.
Proof.
  intros Hd HT Hret.
  assert (Hone : ∀ m st0, _internal_subscriptions st0 = Some d →
            ∃ st', publish_local T m st0 = (st', Returned VNone)
                   ∧ calls st' = calls st0 ++ calls_of m cs
                   ∧ world st' = world_after m (world st0) cs
                   ∧ _internal_subscriptions st' = Some d).
  { intros m st0 Hd0. rewrite (publish_local_list T m st0 d cs Hd0 HT).
    match goal with |- context [for_each cs _ ?s] =>
      destruct (for_each_call_all cs m s (fun c w => Hret c m w))
        as (st' & -> & Hcalls & Hw & Hreg & _)
    end.
    exists st'. simpl in *. by rewrite Hreg. }
  destruct (Hone m1 st Hd) as (st1 & H1 & Hc1 & Hw1 & Hd1).
  destruct (Hone m2 st1 Hd1) as (st2 & H2 & Hc2 & Hw2 & Hd2).
  exists st1, st2. repeat (split; [done|]). split; [|split; [|done]].
  - by rewrite Hc2, Hc1, <- app_assoc.
  - by rewrite Hw2, Hw1.
Qed.

(** X7: a function that goes to the client, on a bound client: the
    client's method runs once on the arguments, the client and the world
    are the ones it leaves (also when it raises), an exception it raises
    reaches the caller as it is, and a value it returns is replaced by
    [None], except in [rpc_call], which returns it. *)
Theorem facade_hands_over_to_client o meth st c :
  method_of o = Some meth →
  _rmq_client st = Some c →
  ∃ st',
    run_op o st
    = (st', match (meth c (world st)).2 with
            | Returned v => Returned (if is_rpc_call o then v else VNone)
            | Raised e => Raised e
            end)
    ∧ _rmq_client st' = Some (meth c (world st)).1.1
    ∧ world st' = (meth c (world st)).1.2
    ∧ _internal_subscriptions st' = _internal_subscriptions st
    ∧ calls st' = calls st.
Proof.
  intros Hm Hc. rewrite (run_op_delegates o meth st Hm), Hc. by eexists.
Qed.

(** X8: when the constructor of the client raises, [start] raises the
    same exception after it has already rebound the registry to the empty
    dict: on a running broker the local subscriptions are gone, while the
    global [_rmq_client] still refers to the previous client. *)
Theorem start_fails_in_constructor lq cp e st :
  rmq_init lq cp = Raised e →
  ∃ st',
    start lq cp st = (st', Raised e)
    ∧ _internal_subscriptions st' = Some ∅
    ∧ _rmq_client st' = _rmq_client st
    ∧ orphans st' = orphans st
    ∧ world st' = world st.
Proof.
  intros Hi. rewrite start_steps, Hi. by eexists.
Qed.

(** X9: when the client is built but its [start] raises, [start] raises
    the same exception; the global [_rmq_client] is already bound to the
    new client, as its [start] left it, the previous client is dropped, and
    [enable_rpc_client] was not called. *)
Theorem start_fails_in_client_start lq cp c0 c1 w1 e st :
  rmq_init lq cp = Returned c0 →
  rmq_start c0 (world st) = (c1, w1, Raised e) →
  ∃ st',
    start lq cp st = (st', Raised e)
    ∧ _internal_subscriptions st' = Some ∅
    ∧ _rmq_client st' = Some c1
    ∧ world st' = w1
    ∧ orphans st'
      = match _rmq_client st with
        | Some old => orphans st ++ [old]
        | None => orphans st
        end.
Proof.
  intros Hi Hs. rewrite start_steps, Hi. simpl. rewrite Hs. by eexists.
Qed.

Lemma run_op_log o st :
  log (run_op o st).1 = log st ++ [intent o].
Proof.
  destruct o as [lq cp| |t cb|t cb|t m|t m|q cb|q m|q cb|q m];
    try (erewrite run_op_delegates by reflexivity;
         by destruct (_rmq_client st)).
  - simpl. rewrite start_steps. simpl.
    destruct (rmq_init lq cp) as [c0|e]; [|done].
    destruct (rmq_start c0 (world st)) as [[c1 w1] [v1|e1]]; [|done].
    by destruct (rmq_enable_rpc_client c1 w1) as [[c2 w2] [v2|e2]].
  - simpl. destruct (_internal_subscriptions st) as [d|] eqn:Hd.
    + by rewrite (subscribe_local_steps _ _ _ d Hd).
    + by rewrite (subscribe_local_unbound _ _ _ Hd).
  - simpl. by destruct (publish_local_frame t m st) as (_ & _ & _ & ->).
Qed.

(** X10: every call writes exactly one record to the log, the one naming
    the function and its topic or queue, whether the call returns or
    raises: after a sequence of calls the log is the old log followed by
    the records of the calls, in the order they were made. *)
Theorem log_is_the_sequence_of_calls os st :
  log (run_ops os st) = log st ++ (intent <$> os).
Proof.
  revert st. induction os as [|o os IH]; intros st; simpl.
  - by rewrite app_nil_r.
  - by rewrite IH, run_op_log, <- app_assoc.
Qed.

Lemma run_op_keeps_bound o st :
  is_Some (_internal_subscriptions st) →
  is_Some (_rmq_client st) →
  is_Some (_internal_subscriptions (run_op o st).1)
  ∧ is_Some (_rmq_client (run_op o st).1).
Proof.
  intros [d Hd] [c Hc].
  destruct o as [lq cp| |t cb|t cb|t m|t m|q cb|q m|q cb|q m];
    try (erewrite run_op_delegates by reflexivity;
         rewrite Hc; simpl; by rewrite Hd).
  - simpl. rewrite start_steps. simpl.
    destruct (rmq_init lq cp) as [c0|e]; [|simpl; by rewrite Hc].
    destruct (rmq_start c0 (world st)) as [[c1 w1] [v1|e1]]; [|done].
    by destruct (rmq_enable_rpc_client c1 w1) as [[c2 w2] [v2|e2]].
  - simpl. rewrite (subscribe_local_steps _ _ _ d Hd). simpl. by rewrite Hc.
  - simpl. destruct (publish_local_frame t m st) as (-> & -> & _).
    by rewrite Hd, Hc.
Qed.

Lemma start_returned_binds lq cp st st' v :
  start lq cp st = (st', Returned v) →
  _internal_subscriptions st' = Some ∅ ∧ ∃ c, _rmq_client st' = Some c.
Proof.
  rewrite start_steps. simpl.
  destruct (rmq_init lq cp) as [c0|e]; [|done].
  destruct (rmq_start c0 (world st)) as [[c1 w1] [v1|e1]]; [|done].
  destruct (rmq_enable_rpc_client c1 w1) as [[c2 w2] [v2|e2]]; [|done].
  intros [= <- <-]. split; [done|]. by exists c2.
Qed.

(** X11: nothing unbinds the two globals.  Once a [start] has returned,
    both [_internal_subscriptions] and [_rmq_client] are bound after any
    further sequence of calls, [stop] and failed calls included. *)
Theorem globals_stay_bound lq cp st st' v os :
  start lq cp st = (st', Returned v) →
  is_Some (_internal_subscriptions (run_ops os st'))
  ∧ is_Some (_rmq_client (run_ops os st')).
Proof.
  intros Hstart.
  assert (H0 : is_Some (_internal_subscriptions st')
               ∧ is_Some (_rmq_client st')).
  { destruct (start_returned_binds lq cp st st' v Hstart) as [-> [c ->]].
    by split; eexists. }
  clear Hstart. revert st' H0.
  induction os as [|o os IH]; intros st' [Hd Hc]; [done|].
  simpl. apply IH. by apply run_op_keeps_bound.
Qed.

End FacadeFacts.
(** ** The facade on the loopback transport *)

Import Loopback.

(** C1: start, two [subscribe_local] on "orders" (callbacks [A], then
    [B]), then [publish_local("orders", "x")].  Both subscriptions return,
    but the second one stores what [append] returns, [None], as the entry
    of "orders": the publish raises "That subscription does not exist" and
    neither [A] nor [B] is called. *)
Theorem second_subscription_destroys_the_first :
  start None None fresh = (running, Returned VNone)
  ∧ subscribe_local "orders" (logging "A") running
    = (subscribed_A, Returned VNone)
  ∧ _internal_subscriptions subscribed_A
    = Some {[ "orders" := PList [logging "A"] ]}
  ∧ subscribe_local "orders" (logging "B") subscribed_A
    = (subscribed_A_B, Returned VNone)
  ∧ _internal_subscriptions subscribed_A_B = Some {[ "orders" := PNone ]}
  ∧ (publish_local "orders" (VStr "x") subscribed_A_B).2
    = Raised (Exception_ "That subscription does not exist")
  ∧ calls (publish_local "orders" (VStr "x") subscribed_A_B).1 = []
  ∧ world (publish_local "orders" (VStr "x") subscribed_A_B).1 = [].
Proof.
  split; [run|]. split; [run|]. split; [run|]. split; [run|].
  split; [run|]. split; [run|]. split; run.
Qed.

(** C2 at a concrete input: "payments" has no entry on the broker that
    only subscribed to "orders". *)
Lemma publish_local_without_subscribers_witness :
  ∃ st',
    publish_local "payments" (VStr "x") subscribed_A
      = (st', Raised (Exception_ "That subscription does not exist"))
    ∧ calls st' = calls subscribed_A
    ∧ world st' = world subscribed_A.
Proof.
  apply (publish_local_without_subscribers "payments" (VStr "x") subscribed_A
           {[ "orders" := PList [logging "A"] ]}).
  - vm_compute; reflexivity.
  - vm_compute; reflexivity.
Defined.

(** C3 at a concrete input: the entry of "orders" holds [A; B]; the publish
    calls a prefix of [A; B], and all of it when both return. *)
Lemma publish_local_in_registration_order_witness :
  ∃ st' r k,
    publish_local "orders" (VStr "x") orders_A_B = (st', r)
    ∧ k ≤ length [logging "A"; logging "B"]
    ∧ calls st'
      = calls orders_A_B
        ++ calls_of (VStr "x") (take k [logging "A"; logging "B"])
    ∧ world st'
      = world_after (VStr "x") (world orders_A_B)
          (take k [logging "A"; logging "B"])
    ∧ match r with
      | Returned v => v = VNone ∧ k = length [logging "A"; logging "B"]
      | Raised e =>
          ∃ j c, k = S j ∧ [logging "A"; logging "B"] !! j = Some c
            ∧ (c (VStr "x")
                 (world_after (VStr "x") (world orders_A_B)
                    (take j [logging "A"; logging "B"]))).2 = Raised e
      end
    ∧ ((∀ c w, c ∈ [logging "A"; logging "B"] →
               ∃ v, (c (VStr "x") w).2 = Returned v) →
       r = Returned VNone
       ∧ calls st'
         = calls orders_A_B
           ++ calls_of (VStr "x") [logging "A"; logging "B"]
       ∧ world st'
         = world_after (VStr "x") (world orders_A_B)
             [logging "A"; logging "B"]).
Proof.
  apply (publish_local_in_registration_order "orders" (VStr "x") orders_A_B
           {[ "orders" := PList [logging "A"; logging "B"] ]}
           [logging "A"; logging "B"]).
  - vm_compute; reflexivity.
  - vm_compute; reflexivity.
Defined.

(** The two callbacks are called in the order of the list. *)
Example publish_local_A_then_B :
  (publish_local "orders" (VStr "x") orders_A_B).2 = Returned VNone
  ∧ world (publish_local "orders" (VStr "x") orders_A_B).1
    = [("A", VStr "x"); ("B", VStr "x")]
  ∧ calls (publish_local "orders" (VStr "x") orders_A_B).1
    = [(logging "A", VStr "x"); (logging "B", VStr "x")].
Proof. split; [run|]. split; run. Qed.

(** A callback that raises ends the loop: the callbacks after it are not
    called, and its exception is the outcome of [publish_local]. *)
Example publish_local_stops_at_failing_callback :
  (publish_local "orders" (VStr "x") orders_failing_B).2
    = Raised (PyExn "ValueError" "A")
  ∧ world (publish_local "orders" (VStr "x") orders_failing_B).1
    = [("A", VStr "x")]
  ∧ calls (publish_local "orders" (VStr "x") orders_failing_B).1
    = [(failing "A", VStr "x")].
Proof. split; [run|]. split; run. Qed.

(** C4 fails on the code: after [start], a subscription and [stop],
    [publish_local] returns and the subscriber is called. *)
Lemma publish_local_after_stop_delivers :
  start None None fresh = (running, Returned VNone)
  ∧ subscribe_local "orders" (logging "A") running
    = (subscribed_A, Returned VNone)
  ∧ stop subscribed_A = (stopped_A, Returned VNone)
  ∧ (publish_local "orders" (VStr "x") stopped_A).2 = Returned VNone
  ∧ world (publish_local "orders" (VStr "x") stopped_A).1
    = [("A", VStr "x")].
Proof.
  split; [run|]. split; [run|]. split; [run|]. split; run.
Qed.

(** C6 fails on the code: [stop] on a module that never started raises a
    [NameError], and a second [stop] after [start] and [stop] returns. *)
Lemma stop_twice_returns :
  (stop fresh).2
    = Raised (PyExn "NameError" "name '_rmq_client' is not defined")
  ∧ start None None fresh = (running, Returned VNone)
  ∧ stop running = (stopped, Returned VNone)
  ∧ (stop stopped).2 = Returned VNone.
Proof.
  split; [run|]. split; [run|]. split; run.
Qed.

(** C4, as the code has it, at a concrete input: the module before any
    [start], and the broker that subscribed [A] to "orders". *)
Lemma lifecycle_is_not_guarded_witness :
  (stop fresh).2 = Raised (NameError "_rmq_client")
  ∧ (publish_local "orders" (VStr "x") fresh).2
    = Raised (NameError "_internal_subscriptions")
  ∧ ∃ st', (stop subscribed_A).1 = st'
           ∧ _internal_subscriptions st'
             = Some {[ "orders" := PList [logging "A"] ]}
           ∧ (publish_local "payments" (VStr "x") st').2
             = Raised (Exception_ "That subscription does not exist").
Proof.
  assert (H0 : _rmq_client fresh = None) by (vm_compute; reflexivity).
  assert (H1 : _internal_subscriptions fresh = None)
    by (vm_compute; reflexivity).
  assert (H2 : _rmq_client subscribed_A = Some (Client true true [] ∅ ∅ []))
    by (vm_compute; reflexivity).
  assert (H3 : _internal_subscriptions subscribed_A
               = Some {[ "orders" := PList [logging "A"] ]})
    by (vm_compute; reflexivity).
  destruct (lifecycle_is_not_guarded fresh subscribed_A _ _ H0 H1 H2 H3)
    as [[Hstop Hops] (st' & r & c' & Hrun & _ & _ & Hd & Habsent & _)].
  split; [exact Hstop|].
  split; [exact (proj1 (proj2 (proj2 (proj2
                   (Hops "orders" (logging "A") (VStr "x")))))) |].
  exists st'. split; [rewrite Hrun; reflexivity|].
  split; [exact Hd|].
  apply Habsent. vm_compute; reflexivity.
Defined.

(** C7 at a concrete input: the echo server is registered, and the call
    returns the request bytes. *)
Lemma rpc_call_returns_the_reply_witness :
  ∃ st',
    rpc_call "echo" (VBytes (String.list_byte_of_string "ping")) echo_served
      = (st', Returned (VBytes (String.list_byte_of_string "ping")))
    ∧ _rmq_client st'
      = Some (Client true true [] {[ "echo" := echoHandler ]} ∅ [])
    ∧ world st' = []
    ∧ _internal_subscriptions st' = _internal_subscriptions echo_served
    ∧ calls st' = calls echo_served.
Proof.
  apply (rpc_call_returns_the_reply "echo"
           (VBytes (String.list_byte_of_string "ping"))
           (VBytes (String.list_byte_of_string "ping")) echo_served
           (Client true true [] {[ "echo" := echoHandler ]} ∅ [])).
  - vm_compute; reflexivity.
  - vm_compute; reflexivity.
Defined.

(** C8 at a concrete input: [start()] on the module as imported returns,
    and the client was built, started and given its RPC client; no RPC
    server was registered. *)
Lemma start_enables_rpc_client_witness :
  ∃ c0 c1 w1 v1 c2 w2 v2,
    rmq_init None None = Returned c0
    ∧ rmq_start c0 (world fresh) = (c1, w1, Returned v1)
    ∧ rmq_enable_rpc_client c1 w1 = (c2, w2, Returned v2)
    ∧ _rmq_client running = Some c2
    ∧ world running = w2
    ∧ _internal_subscriptions running = Some ∅
    ∧ VNone = VNone.
Proof.
  apply (start_enables_rpc_client None None fresh running VNone).
  vm_compute; reflexivity.
Defined.

(** The client of the started broker is connected and has its RPC client,
    though it serves no RPC queue. *)
Example running_client :
  _rmq_client running = Some (Client true true [] ∅ ∅ []).
Proof. run. Qed.

(** C9 at a concrete input: a second [start] on the broker that
    subscribed [A] to "orders". *)
Lemma start_again_replaces_client_and_registry_witness :
  _internal_subscriptions (start None (Some "other-host") subscribed_A).1
    = Some ∅
  ∧ orphans (start None (Some "other-host") subscribed_A).1
    = orphans subscribed_A ++ [Client true true [] ∅ ∅ []]
  ∧ ∃ st'',
      publish_local "orders" (VStr "x")
        (start None (Some "other-host") subscribed_A).1
      = (st'', Raised (Exception_ "That subscription does not exist")).
Proof.
  assert (Hc : _rmq_client subscribed_A = Some (Client true true [] ∅ ∅ []))
    by (vm_compute; reflexivity).
  assert (Hd : _internal_subscriptions subscribed_A
               = Some {[ "orders" := PList [logging "A"] ]})
    by (vm_compute; reflexivity).
  assert (Hs : start None (Some "other-host") subscribed_A
               = ((start None (Some "other-host") subscribed_A).1,
                  Returned VNone))
    by (vm_compute; reflexivity).
  destruct (start_again_replaces_client_and_registry
              None (Some "other-host") subscribed_A _ _ _ _ Hc Hd Hs)
    as (_ & Hreg & _ & Horph & Hpub).
  split; [exact Hreg|]. split; [exact Horph|].
  destruct (Hpub "orders" (VStr "x")) as (st'' & Hrun & _).
  exists st''. exact Hrun.
Defined.

(** C10 at a concrete input: the failed publish on "payments" leaves the
    entry of "orders". *)
Lemma publish_local_failure_leaves_registry_witness :
  ∃ st',
    publish_local "payments" (VStr "x") subscribed_A
      = (st', Raised (Exception_ "That subscription does not exist"))
    ∧ _internal_subscriptions st'
      = Some {[ "orders" := PList [logging "A"] ]}.
Proof.
  destruct (publish_local_failure_leaves_registry "payments" (VStr "x")
              subscribed_A {[ "orders" := PList [logging "A"] ]})
    as (st' & Hrun & Hd & _).
  - vm_compute; reflexivity.
  - vm_compute; reflexivity.
  - exists st'. split; [exact Hrun | exact Hd].
Defined.

(** ** The facade as a whole, on the loopback transport *)

(** X1 at a concrete input: the first subscription to "orders" on the
    started broker, then a publish. *)
Lemma subscribe_local_then_publish_local_witness :
  ∃ st1 st2,
    subscribe_local "orders" (logging "A") running = (st1, Returned VNone)
    ∧ publish_local "orders" (VStr "x") st1
      = (st2, match (logging "A" (VStr "x") (world running)).2 with
              | Returned _ => Returned VNone
              | Raised e => Raised e
              end)
    ∧ calls st2 = calls running ++ [(logging "A", VStr "x")]
    ∧ world st2 = (logging "A" (VStr "x") (world running)).1
    ∧ _internal_subscriptions st2
      = Some (<["orders" := PList [logging "A"]]> ∅).
Proof.
  apply (subscribe_local_then_publish_local "orders" (logging "A") (VStr "x")
           running ∅).
  - vm_compute; reflexivity.
  - vm_compute; reflexivity.
Defined.

(** X2 at a concrete input: a second subscription to "orders" leaves the
    entry of "payments" (there is none) and calls nobody. *)
Lemma subscribe_local_touches_one_entry_witness :
  ∃ st' d',
    subscribe_local "orders" (logging "B") subscribed_A
      = (st', Returned VNone)
    ∧ _internal_subscriptions st' = Some d'
    ∧ (∀ T', T' ≠ "orders" →
             d' !! T'
             = ({[ "orders" := PList [logging "A"] ]}
                  : gmap string (pyobj journal)) !! T')
    ∧ calls st' = calls subscribed_A
    ∧ world st' = world subscribed_A
    ∧ _rmq_client st' = _rmq_client subscribed_A
    ∧ orphans st' = orphans subscribed_A.
Proof.
  apply (subscribe_local_touches_one_entry "orders" (logging "B")
           subscribed_A {[ "orders" := PList [logging "A"] ]}).
  vm_compute; reflexivity.
Defined.

(** X3 at a concrete input: three subscriptions to "orders" leave the
    third callback alone. *)
Lemma subscribe_local_alternates_witness :
  ∃ d',
    _internal_subscriptions
      (subscribe_all "orders" [logging "A"; logging "B"; logging "C"] running)
    = Some d'
    ∧ dict_get d' "orders" = PList [logging "C"].
Proof.
  destruct (subscribe_local_alternates "orders"
              [logging "A"; logging "B"; logging "C"] running ∅)
    as (d' & Hd' & Hentry & _).
  - vm_compute; reflexivity.
  - vm_compute; reflexivity.
  - exists d'. split; [exact Hd' | exact Hentry].
Defined.

(** X6 at a concrete input: two publishes on the entry [A; B]. *)
Lemma publish_local_twice_witness :
  ∃ st1 st2,
    publish_local "orders" (VStr "x") orders_A_B = (st1, Returned VNone)
    ∧ publish_local "orders" (VStr "y") st1 = (st2, Returned VNone)
    ∧ world st2
      = [("A", VStr "x"); ("B", VStr "x"); ("A", VStr "y"); ("B", VStr "y")].
Proof.
  destruct (publish_local_twice "orders" (VStr "x") (VStr "y") orders_A_B
              {[ "orders" := PList [logging "A"; logging "B"] ]}
              [logging "A"; logging "B"])
    as (st1 & st2 & H1 & H2 & _ & Hw & _).
  - vm_compute; reflexivity.
  - vm_compute; reflexivity.
  - intros c m w Hin. exists VNone.
    apply list_elem_of_In in Hin. simpl in Hin.
    destruct Hin as [<- | [<- | []]]; reflexivity.
  - exists st1, st2. split; [exact H1|]. split; [exact H2|]. exact Hw.
Defined.

(** X7 at a concrete input: [publish_global] on the started broker hands
    the message to the client and returns [None]. *)
Lemma facade_hands_over_to_client_witness :
  ∃ st',
    publish_global "news" (VBytes (String.list_byte_of_string "hi")) running
      = (st', Returned VNone)
    ∧ _rmq_client st'
      = Some (Client true true [] ∅ ∅
                [("news", VBytes (String.list_byte_of_string "hi"))])
    ∧ _internal_subscriptions st' = _internal_subscriptions running
    ∧ calls st' = calls running.
Proof.
  destruct (facade_hands_over_to_client
              (Publish_global "news"
                 (VBytes (String.list_byte_of_string "hi")))
              (send "news" (VBytes (String.list_byte_of_string "hi")))
              running (Client true true [] ∅ ∅ []))
    as (st' & Hrun & Hc & _ & Hreg & Hcalls).
  - reflexivity.
  - vm_compute; reflexivity.
  - exists st'. split; [exact Hrun|]. split; [exact Hc|].
    split; [exact Hreg | exact Hcalls].
Defined.

(** X8 at a concrete input: a second [start] towards a host that cannot be
    reached fails, and the subscription to "orders" is gone. *)
Lemma start_fails_in_constructor_witness :
  ∃ st',
    start None (Some "unreachable") subscribed_A
      = (st', Raised (PyExn "ConnectionError" "connect failed"))
    ∧ _internal_subscriptions st' = Some ∅
    ∧ _rmq_client st' = _rmq_client subscribed_A
    ∧ orphans st' = orphans subscribed_A
    ∧ world st' = world subscribed_A.
Proof.
  apply (start_fails_in_constructor None (Some "unreachable")
           (PyExn "ConnectionError" "connect failed") subscribed_A).
  vm_compute; reflexivity.
Defined.

(** X9 at a concrete input: [start] with a transport that refuses the
    connection. *)
Lemma start_fails_in_client_start_witness :
  ∃ st',
    start (RMQClient0:=refusing_transport) None None subscribed_A
      = (st', Raised (PyExn "ConnectionError" "connection refused"))
    ∧ _internal_subscriptions st' = Some ∅
    ∧ _rmq_client st' = Some (Client false false [] ∅ ∅ [])
    ∧ world st' = []
    ∧ orphans st' = [Client true true [] ∅ ∅ []].
Proof.
  destruct (start_fails_in_client_start (RMQClient0:=refusing_transport) None None
              (Client false false [] ∅ ∅ []) (Client false false [] ∅ ∅ [])
              [] (PyExn "ConnectionError" "connection refused") subscribed_A)
    as (st' & Hrun & Hreg & Hc & Hw & Horph).
  - vm_compute; reflexivity.
  - vm_compute; reflexivity.
  - exists st'. split; [exact Hrun|]. split; [exact Hreg|].
    split; [exact Hc|]. split; [exact Hw|]. rewrite Horph.
    vm_compute; reflexivity.
Defined.

(** X11 at a concrete input: after [start], a subscription, [stop], an
    RPC call that fails and a second [stop], both globals are bound. *)
Lemma globals_stay_bound_witness :
  is_Some (_internal_subscriptions
             (run_ops [Subscribe_local "orders" (logging "A"); Stop;
                       Rpc_call "echo" (VStr "x"); Stop] running))
  ∧ is_Some (_rmq_client
               (run_ops [Subscribe_local "orders" (logging "A"); Stop;
                         Rpc_call "echo" (VStr "x"); Stop] running)).
Proof.
  apply (globals_stay_bound None None fresh running VNone).
  vm_compute; reflexivity.
Defined.

(** The log after these calls names each of them, the failed one too. *)
Example log_after_five_calls :
  log (run_ops [Start None None; Subscribe_local "orders" (logging "A"); Stop;
                Rpc_call "echo" (VStr "x"); Stop] fresh)
  = ["broker start"; "Broker subscribe_local to orders"; "broker stop";
     "broker rpc_call to echo"; "broker stop"].
Proof. run. Qed.
